(** * depmap_network_functions: gene-gene connectivity over INDRA statements

    A shallow embedding of [depmap_network_functions.py].  The Python module is
    glue over three collaborators that live outside of it: the INDRA REST
    client ([capi]), the INDRA database client ([dbc] with the session of
    [db_prim]) and the ontology hierarchy manager ([hm]).  Each of them is a
    record of functions passed to the embedded code, the way the source passes
    [ho] around.  Python exceptions are values of [exn]; code that talks to the
    outside world runs in a state-and-exception monad. *)

From stdpp Require Import gmap strings list fin_maps.

Open Scope string_scope.
Open Scope list_scope.
Open Scope nat_scope.

Set Warnings "-clear-no-such-hyp".

(** ** Exceptions and the two monads *)

Inductive exn : Type :=
  | AttributeError
  | IndraDBRestError
  | StatementError (msg : string)
  | KeyboardInterrupt
  | OtherError (msg : string).

Inductive outcome (A : Type) : Type :=
  | Return (a : A)
  | Raise (e : exn).
Arguments Return {A} a.
Arguments Raise {A} e.

#[global] Instance exn_eq_dec : EqDecision exn.
Proof. solve_decision. Defined.

#[global] Instance outcome_ret : MRet outcome := @Return.
#[global] Instance outcome_bind : MBind outcome := λ A B f m,
  match m with
  | Return a => f a
  | Raise e => Raise e
  end.

(** Computations that read and change a state [St] and may raise. *)
Definition SE (St A : Type) : Type := St → outcome A * St.

#[global] Instance SE_ret {St} : MRet (SE St) := λ A a s, (Return a, s).
#[global] Instance SE_bind {St} : MBind (SE St) := λ A B f m s,
  match m s with
  | (Return a, s') => f a s'
  | (Raise e, s') => (Raise e, s')
  end.

Definition raise {St A} (e : exn) : SE St A := λ s, (Raise e, s).

Definition lift {St A} (o : outcome A) : SE St A := λ s, (o, s).

(** [try: body  except ...: handler e]; the handler re-raises what it does
    not catch. *)
Definition try_except {St A} (body : SE St A) (handler : exn → SE St A)
  : SE St A := λ s,
  match body s with
  | (Return a, s') => (Return a, s')
  | (Raise e, s') => handler e s'
  end.

(** ** Data model *)

Record Agent : Type := { name : string }.

(** The attributes of an INDRA statement this module reads: [agent_list()],
    whose entries may be [None], and [to_json()['type']]. *)
Record Statement : Type := {
  agent_list : list (option Agent);
  json_type : string
}.

#[global] Instance Agent_eq_dec : EqDecision Agent.
Proof. solve_decision. Defined.
#[global] Instance Statement_eq_dec : EqDecision Statement.
Proof. solve_decision. Defined.

#[global] Instance Agent_countable : Countable Agent.
Proof. by apply (inj_countable' name Build_Agent); intros []. Defined.
#[global] Instance Statement_countable : Countable Statement.
Proof.
  by apply (inj_countable' (λ st, (agent_list st, json_type st))
                           (λ p, Build_Statement p.1 p.2)); intros [].
Defined.

(** What the logger receives; the two format strings of the source. *)
Inductive log_msg : Type :=
  | CreatedNestedDict (n : nat)
  | FinishedQueries (counter n : nat).

(** Observable interactions, oldest first. *)
Inductive event : Type :=
  | ApiGetStatements (subject object on_limit : string)
  | LogInfo (msg : log_msg).

Abbreviation trace := (list event).

Definition logger_info {St} (put : event → St → St) (msg : log_msg)
  : SE St unit := λ s, (Return tt, put (LogInfo msg) s).

Definition record (e : event) (tr : trace) : trace := tr ++ [e].

(** ** AgentExtractor *)

(** [ag.name]: attribute access on [None] raises [AttributeError]. *)
Definition getattr_name (ag : option Agent) : outcome string :=
  match ag with
  | Some a => Return (name a)
  | None => Raise AttributeError
  end.

(** [map(lambda ag: ag.name, agents)], consumed by [set(...)]. *)
Fixpoint map_name (ags : list (option Agent)) : outcome (list string) :=
  match ags with
  | [] => Return []
  | ag :: rest =>
      n ← getattr_name ag;
      ns ← map_name rest;
      Return (n :: ns)
  end.

(** The [for ag in stmt.agent_list()] loop of the handler. *)
Fixpoint add_names (ags : gset string) (l : list (option Agent))
  : outcome (gset string) :=
  match l with
  | [] => Return ags
  | None :: rest => add_names ags rest
  | Some a :: rest =>
      n ← getattr_name (Some a);
      add_names (ags ∪ {[n]}) rest
  end.

Definition agent_name_set (stmt : Statement) : outcome (gset string) :=
  let ags : gset string := ∅ in
  match map_name (agent_list stmt) with
  | Return ns => Return (ags ∪ list_to_set ns)
  | Raise AttributeError => add_names ags (agent_list stmt)
  | Raise e => Raise e
  end.

(** ** HierarchyLookup *)

Record HierarchyManager : Type := {
  get_uri : string → string → string;
  get_parents : string → string → gset string
}.

Definition find_parent (ho : HierarchyManager) (ns id type : string)
  : gset string :=
  get_parents ho (get_uri ho ns id) type.

Definition common_parent (ho : HierarchyManager)
    (ns1 id1 ns2 id2 type : string) : gset string :=
  find_parent ho ns1 id1 type ∩ find_parent ho ns2 id2 type.

(** [bool(s)] for a set. *)
Definition set_truthy (s : gset string) : bool := bool_decide (s ≠ ∅).

Definition has_common_parent (ho : HierarchyManager)
    (ns1 id1 ns2 id2 type : string) : bool :=
  set_truthy (common_parent ho ns1 id1 ns2 id2 type).

(** ** PairIndexBuilder *)

Abbreviation AdjacencyIndex := (gmap string (gmap string (gset string))).

(** [itertools.permutations(l, r=2)]: ordered pairs of two different
    positions, in lexicographic order of the positions. *)
Fixpoint permutations2_from {A} (pre l : list A) : list (A * A) :=
  match l with
  | [] => []
  | x :: post =>
      (pair x <$> pre ++ post) ++ permutations2_from (pre ++ [x]) post
  end.

Definition permutations2 {A} (l : list A) : list (A * A) :=
  permutations2_from [] l.

(** The body of the inner [for agent, other_agent in ...] loop.  The outer
    dictionary is a [defaultdict(dict)]: reading a missing [agent] yields an
    empty inner dictionary; the inner lookup raises [KeyError] when the pair
    is new, and the handler stores the singleton. *)
Definition add_connection (ho : HierarchyManager) (connection : string)
    (d : AdjacencyIndex) (p : string * string) : AdjacencyIndex :=
  let '(agent, other_agent) := p in
  let inner : gmap string (gset string) := default ∅ (d !! agent) in
  let conns : gset string :=
    match (inner !! other_agent : option (gset string)) with
    | Some s => s ∪ {[connection]}
    | None => {[connection]}
    end in
  let conns' : gset string :=
    if has_common_parent ho "HGNC" agent "HGNC" other_agent "all"
    then conns ∪ {["parent"]}
    else conns in
  <[agent := <[other_agent := conns']> inner]> d.

(** The [for st in stmts] loop.  [list(agent_name_set(st))] lists the set in
    some order; the index built does not depend on it. *)
Fixpoint nested_dict_loop (ho : HierarchyManager) (stmts : list Statement)
    (d : AdjacencyIndex) : outcome AdjacencyIndex :=
  match stmts with
  | [] => Return d
  | st :: rest =>
      names ← agent_name_set st;
      let agent_names := elements names in
      if decide (1 < length agent_names) then
        let connection := json_type st in
        if decide (connection ≠ "") then
          nested_dict_loop ho rest
            (foldl (add_connection ho connection) d (permutations2 agent_names))
        else nested_dict_loop ho rest d
      else nested_dict_loop ho rest d
  end.

Definition nested_dict_gen (entity : HierarchyManager) (stmts : list Statement)
  : SE trace AdjacencyIndex :=
  nested_stmt_dicts ← lift (nested_dict_loop entity stmts ∅);
  _ ← logger_info record (CreatedNestedDict (length stmts));
  mret nested_stmt_dicts.

(** ** StatementStore facade *)

(** [indra.db.client] together with the session of [db_prim].  A fetch may
    change the session and may raise; [session_rollback] is
    [db_prim.session.rollback()]. *)
Record DbClient (Session : Type) : Type := {
  get_statements_by_gene_role_type :
    string → Session → outcome (list Statement) * Session;
  session_rollback : Session → Session
}.
Arguments get_statements_by_gene_role_type {Session} _ _ _.
Arguments session_rollback {Session} _ _.

Definition db_fetch {S} (db : DbClient S) (agent_id : string)
  : SE (S * trace) (list Statement) := λ w,
  let '(r, s') := get_statements_by_gene_role_type db agent_id w.1 in
  (r, (s', w.2)).

Definition db_rollback {S} (db : DbClient S) : SE (S * trace) unit := λ w,
  (Return tt, (session_rollback db w.1, w.2)).

Definition db_record {S} (e : event) (w : S * trace) : S * trace :=
  (w.1, record e w.2).

(** [ceil(log10(n))] for the length [n ≥ 1] of a list: the least [c] with
    [n ≤ 10 ^ c]. *)
Fixpoint ceil_log10_from (fuel c p n : nat) : nat :=
  match fuel with
  | 0 => c
  | S fuel' =>
      if decide (n ≤ p) then c else ceil_log10_from fuel' (S c) (10 * p) n
  end.

Definition ceil_log10 (n : nat) : nat := ceil_log10_from n 0 1 n.

(** The [for hgnc_id in hgnc_ids] loop inside the [try]. *)
Fixpoint load_loop {S} (db : DbClient S) (n_hgnc_ids : nat)
    (hgnc_ids : list string) (counter : nat) (stmts : gset Statement)
  : SE (S * trace) (gset Statement) :=
  match hgnc_ids with
  | [] => mret stmts
  | hgnc_id :: rest =>
      fetched ← db_fetch db hgnc_id;
      let stmts := stmts ∪ list_to_set fetched in
      let counter := counter + 1 in
      _ ← (if decide (counter `mod`
                        (10 `max` (10 ^ ceil_log10 n_hgnc_ids `div` 100)) = 0)
           then logger_info db_record (FinishedQueries counter n_hgnc_ids)
           else mret tt);
      load_loop db n_hgnc_ids rest counter stmts
  end.

Definition dbc_load_statements {S} (db : DbClient S) (hgnc_ids : list string)
  : SE (S * trace) (gset Statement) :=
  let stmts : gset Statement := ∅ in
  let counter := 0 in
  let n_hgnc_ids := length hgnc_ids in
  try_except (load_loop db n_hgnc_ids hgnc_ids counter stmts)
    (λ e, match e with
          | KeyboardInterrupt => _ ← db_rollback db; raise e
          | StatementError _ => _ ← db_rollback db; raise e
          | _ => raise e
          end).

(** ** RelationClassifier *)

(** [indra.sources.indra_db_rest.client_api]: the answer of the remote store
    to [get_statements(subject=, object=, on_limit=)]. *)
Record RestClient : Type := {
  get_statements : string → string → string → outcome (list Statement)
}.

Definition capi_get_statements (capi : RestClient)
    (subject object on_limit : string) : SE trace (list Statement) := λ tr,
  (get_statements capi subject object on_limit,
   record (ApiGetStatements subject object on_limit) tr).

(** In both branches the sum [stmts + capi.get_statements(...)] is an
    expression statement: the second query runs and its list is added to a
    temporary that nothing keeps. *)
Definition direct_relation_from_api (capi : RestClient)
    (id1 id2 on_limit : string) : SE trace (list Statement) :=
  try_except
    (stmts ← capi_get_statements capi id1 id2 on_limit;
     other ← capi_get_statements capi id2 id1 on_limit;
     let _ := stmts ++ other in
     mret stmts)
    (λ e, match e with
          | IndraDBRestError =>
              stmts ← capi_get_statements capi (id1 +:+ "@TEXT")
                         (id2 +:+ "@TEXT") on_limit;
              other ← capi_get_statements capi (id2 +:+ "@TEXT")
                         (id1 +:+ "@TEXT") on_limit;
              let _ := stmts ++ other in
              mret stmts
          | _ => raise e
          end).

Fixpoint from_stmts_loop (target_ag : gset string) (stmts_in : list Statement)
    (stmts_out : list Statement) : outcome (list Statement) :=
  match stmts_in with
  | [] => Return stmts_out
  | stms :: rest =>
      s_agents ← agent_name_set stms;
      if decide (target_ag ⊆ s_agents)
      then from_stmts_loop target_ag rest (stmts_out ++ [stms])
      else from_stmts_loop target_ag rest stmts_out
  end.

Definition direct_relation_from_stmts (id1 id2 : string)
    (stmts_in : list Statement) : outcome (list Statement) :=
  let target_ag : gset string := {[id1; id2]} in
  from_stmts_loop target_ag stmts_in [].

(** [long_stmts] defaults to the empty set; [not long_stmts] holds exactly
    for an empty collection. *)
Definition direct_relation (capi : RestClient) (id1 id2 : string)
    (long_stmts : list Statement) : SE trace (list Statement) :=
  match long_stmts with
  | [] => direct_relation_from_api capi id1 id2 "sample"
  | _ :: _ => lift (direct_relation_from_stmts id1 id2 long_stmts)
  end.

Definition relation_type (indra_stmt : Statement) : string :=
  json_type indra_stmt.

Fixpoint relation_types_loop (stmts : list Statement) (types : list string)
  : list string :=
  match stmts with
  | [] => types
  | stmt :: rest => relation_types_loop rest (types ++ [relation_type stmt])
  end.

Definition relation_types (stmts : list Statement) : list string :=
  relation_types_loop stmts [].

(** [bool(l)] for a list. *)
Definition list_truthy {A} (l : list A) : bool :=
  match l with [] => false | _ :: _ => true end.

Definition has_direct_relation (capi : RestClient) (id1 id2 : string)
    (long_stmts : list Statement) : SE trace bool :=
  stmts ← direct_relation capi id1 id2 long_stmts;
  mret (list_truthy stmts).

(** [a or b]: [b] is evaluated only when [a] is false.  The namespace passed
    here is the string ['HGCN']. *)
Definition are_connected (entity : HierarchyManager) (capi : RestClient)
    (id1 id2 : string) (long_stmts : list Statement) : SE trace bool :=
  if has_common_parent entity "HGCN" id1 "HGCN" id2 "all"
  then mret true
  else has_direct_relation capi id1 id2 long_stmts.

Definition connection_types (entity : HierarchyManager) (capi : RestClient)
    (id1 id2 : string) (long_stmts : list Statement)
  : SE trace (list string) :=
  stmts ← direct_relation capi id1 id2 long_stmts;
  let ctypes := relation_types stmts in
  if has_common_parent entity "HGNC" id1 "HGNC" id2 "all"
  then mret (ctypes ++ ["parent"])
  else mret ctypes.

(** ** Concrete collaborators and statements used in the examples *)

Module Examples.

Definition agent (n : string) : option Agent := Some {| name := n |}.

Definition phos_AB : Statement :=
  {| agent_list := [agent "A"; agent "B"]; json_type := "Phosphorylation" |}.
Definition act_BA : Statement :=
  {| agent_list := [agent "B"; agent "A"]; json_type := "Activation" |}.
Definition act_CD : Statement :=
  {| agent_list := [agent "C"; agent "D"]; json_type := "Activation" |}.
Definition complex_ABC : Statement :=
  {| agent_list := [agent "A"; agent "B"; agent "C"];
     json_type := "Complex" |}.
(** A modification without enzyme: the first participant is [None]. *)
Definition phos_noneB : Statement :=
  {| agent_list := [None; agent "B"]; json_type := "Phosphorylation" |}.

(** A hierarchy in which the genes A and B of the HGNC namespace are both
    members of one family, and nothing else has parents. *)
Definition family_ho : HierarchyManager :=
  {| get_uri := λ ns id, ns +:+ ":" +:+ id;
     get_parents := λ uri _,
       if decide (uri = "HGNC:A" ∨ uri = "HGNC:B")
       then {["FPLX:FAM"]} else ∅ |}.

(** A store without statements. *)
Definition empty_capi : RestClient :=
  {| get_statements := λ _ _ _, Return [] |}.

(** A store whose only statement has subject B and object A. *)
Definition reverse_capi : RestClient :=
  {| get_statements := λ subject object _,
       if decide (subject = "B" ∧ object = "A")
       then Return [act_BA] else Return [] |}.

(** A database whose session counts the fetches of the open transaction;
    the fetch for the id ["BAD"] fails with [err]. *)
Definition counting_db (err : exn) : DbClient nat :=
  {| get_statements_by_gene_role_type := λ agent_id pending,
       if decide (agent_id = "BAD") then (Raise err, S pending)
       else (Return [phos_AB], S pending);
     session_rollback := λ _, 0 |}.

(** A store that rejects entity queries and knows, by text, one statement
    with subject A and object B. *)
Definition text_capi : RestClient :=
  {| get_statements := λ subject object _,
       if decide (subject = "A@TEXT" ∧ object = "B@TEXT")
       then Return [phos_AB]
       else if decide (subject = "B@TEXT" ∧ object = "A@TEXT")
       then Return []
       else Raise IndraDBRestError |}.

(** A store that answers the forward entity query and rejects the reverse
    one; by text it knows one statement. *)
Definition half_capi : RestClient :=
  {| get_statements := λ subject object _,
       if decide (subject = "A" ∧ object = "B") then Return [act_BA]
       else if decide (subject = "A@TEXT" ∧ object = "B@TEXT")
       then Return [phos_AB]
       else if decide (subject = "B@TEXT" ∧ object = "A@TEXT")
       then Return []
       else Raise IndraDBRestError |}.

(** A hierarchy that ignores the namespace: A and B are members of one
    family whatever namespace they are looked up in. *)
Definition flat_ho : HierarchyManager :=
  {| get_uri := λ _ id, id;
     get_parents := λ uri _,
       if decide (uri = "A" ∨ uri = "B") then {["FAM"]} else ∅ |}.

(** A store that is down. *)
Definition down_capi : RestClient :=
  {| get_statements := λ _ _ _, Raise (OtherError "connection refused") |}.

End Examples.

(** * Notions used to state the properties *)

(** The names of the participants that are present, as a set. *)
Definition participant_names (st : Statement) : gset string :=
  list_to_set (omap (fmap name) (agent_list st)).

(** [index[a][b]], when the pair has an entry. *)
Definition entry (d : AdjacencyIndex) (a b : string) : option (gset string) :=
  d !! a ≫= (.!! b).

(** The labels recorded for the pair; none when it has no entry. *)
Definition labels (d : AdjacencyIndex) (a b : string) : gset string :=
  default ∅ (entry d a b).

(** Statement [st] contributes to the pair [(a, b)]: it has a non-empty
    relation type and both names are among its participants' names. *)
Definition links (st : Statement) (a b : string) : Prop :=
  json_type st ≠ "" ∧ a ≠ b ∧
  a ∈ participant_names st ∧ b ∈ participant_names st.

(** The label [L] is one of those the loop body adds for the pair [(a, b)]
    on behalf of a statement of relation type [c]. *)
Definition added_label (ho : HierarchyManager) (c a b L : string) : Prop :=
  L = c ∨ (L = "parent" ∧ has_common_parent ho "HGNC" a "HGNC" b "all" = true).

(** The reading of "ties a and b as co-participants" that C3 uses: both
    names are among the participants' names of the statement. *)
Definition co_participants (st : Statement) (a b : string) : Prop :=
  a ∈ participant_names st ∧ b ∈ participant_names st.

(** The two failures of a fetch that the bulk load handles: a database
    statement error and an interrupt. *)
Definition db_failure (e : exn) : Prop :=
  match e with
  | StatementError _ | KeyboardInterrupt => True
  | _ => False
  end.

(** The session reached when the fetches for [ids] are made in order from
    session [s] and none raises; [None] when one of them raises. *)
Fixpoint fetches_succeed {S} (db : DbClient S) (ids : list string) (s : S)
  : option S :=
  match ids with
  | [] => Some s
  | id :: rest =>
      match get_statements_by_gene_role_type db id s with
      | (Return _, s') => fetches_succeed db rest s'
      | (Raise _, _) => None
      end
  end.

(** The lists that the fetches for [ids] return, in order, with the session
    reached, when none of them raises. *)
Fixpoint fetch_all {S} (db : DbClient S) (ids : list string) (s : S)
  : option (list (list Statement) * S) :=
  match ids with
  | [] => Some ([], s)
  | id :: rest =>
      match get_statements_by_gene_role_type db id s with
      | (Return fetched, s') =>
          match fetch_all db rest s' with
          | Some (ls, sf) => Some (fetched :: ls, sf)
          | None => None
          end
      | (Raise _, _) => None
      end
  end.

(** The modulus of the progress test of the bulk load, for [n] ids. *)
Definition progress_interval (n : nat) : nat :=
  10 `max` (10 ^ ceil_log10 n `div` 100).

(** The progress lines logged while the counter goes from [counter + 1] to
    [counter + len]. *)
Definition progress_lines (counter len n : nat) : trace :=
  (λ c, LogInfo (FinishedQueries c n)) <$>
    filter (λ c, c `mod` progress_interval n = 0) (seq (S counter) len).

(** Both ids are among the names of the participants of [st]. *)
Definition mentions_both (id1 id2 : string) (st : Statement) : Prop :=
  {[id1; id2]} ⊆ participant_names st.

#[global] Instance mentions_both_dec (id1 id2 : string) (st : Statement) :
  Decision (mentions_both id1 id2 st).
Proof. unfold mentions_both. apply _. Defined.

(** * Properties *)

Ltac unfold_SE :=
  unfold mbind, SE_bind, mret, SE_ret, try_except, lift, raise,
    capi_get_statements, logger_info, record in *; simpl in *.

Ltac unfold_db :=
  unfold db_fetch, db_rollback, db_record in *; unfold_SE.

(** ** AgentExtractor *)

Lemma elem_of_participant_names (st : Statement) (n : string) :
  n ∈ participant_names st ↔ ∃ a, Some a ∈ agent_list st ∧ name a = n.
Proof.
  unfold participant_names. rewrite elem_of_list_to_set, list_elem_of_omap.
  split.
  - intros ([a|] & Hin & Heq); simplify_eq/=. eauto.
  - intros (a & Hin & <-). by exists (Some a).
Qed.

Lemma map_name_present (l : list (option Agent)) :
  None ∉ l → map_name l = Return (omap (fmap name) l).
Proof.
  induction l as [|[a|] l IH]; intros Hnone; simpl.
  - done.
  - rewrite IH; [done | set_solver].
  - set_solver.
Qed.

Lemma map_name_absent (l : list (option Agent)) :
  None ∈ l → map_name l = Raise AttributeError.
Proof.
  induction l as [|[a|] l IH]; intros Hnone; simpl.
  - set_solver.
  - rewrite IH; [done | set_solver].
  - done.
Qed.

Lemma add_names_returns (l : list (option Agent)) (ags : gset string) :
  add_names ags l = Return (ags ∪ list_to_set (omap (fmap name) l)).
Proof.
  revert ags. induction l as [|[a|] l IH]; intros ags; simpl.
  - f_equal. set_solver.
  - rewrite IH. f_equal. set_solver.
  - apply IH.
Qed.

Lemma agent_name_set_returns (st : Statement) :
  agent_name_set st = Return (participant_names st).
Proof.
  unfold agent_name_set, participant_names.
  destruct (decide (None ∈ agent_list st)) as [Hin|Hnin].
  - rewrite (map_name_absent _ Hin), add_names_returns. f_equal. set_solver.
  - rewrite (map_name_present _ Hnin). f_equal. set_solver.
Qed.

(** C9: on a statement with a [None] participant the first attempt raises
    [AttributeError], the handler's loop takes over, and [agent_name_set]
    returns (does not raise) the set of the names of the participants that
    are present; [None] contributes nothing. *)
Theorem agent_name_set_null_participant (st : Statement) :
  None ∈ agent_list st →
  map_name (agent_list st) = Raise AttributeError ∧
  ∃ ags : gset string,
    agent_name_set st = Return ags ∧
    ∀ n, n ∈ ags ↔ ∃ a, Some a ∈ agent_list st ∧ name a = n.
Proof.
  intros Hnone. split; [by apply map_name_absent|].
  exists (participant_names st). split.
  - apply agent_name_set_returns.
  - apply elem_of_participant_names.
Qed.

Lemma agent_name_set_null_participant_witness :
  None ∈ agent_list Examples.phos_noneB ∧
  map_name (agent_list Examples.phos_noneB) = Raise AttributeError ∧
  ∃ ags : gset string,
    agent_name_set Examples.phos_noneB = Return ags ∧
    ∀ n, n ∈ ags ↔ ∃ a, Some a ∈ agent_list Examples.phos_noneB ∧ name a = n.
Proof.
  assert (Hin : None ∈ agent_list Examples.phos_noneB) by (simpl; left).
  split; [exact Hin|].
  exact (agent_name_set_null_participant Examples.phos_noneB Hin).
Defined.

(** ** RelationClassifier: scanning a supplied collection *)

Lemma from_stmts_loop_filter (target : gset string)
    (stmts_in stmts_out : list Statement) :
  from_stmts_loop target stmts_in stmts_out =
  Return (stmts_out ++
          filter (λ st, target ⊆ participant_names st) stmts_in).
Proof.
  revert stmts_out. induction stmts_in as [|st rest IH]; intros out; simpl.
  - by rewrite app_nil_r.
  - rewrite agent_name_set_returns. simpl.
    rewrite filter_cons. case_decide.
    + rewrite IH, <- app_assoc. done.
    + apply IH.
Qed.

(** C7: [direct_relation_from_stmts id1 id2 S] returns, in the order of [S],
    exactly the statements of [S] whose set of participant names includes
    both [id1] and [id2]. *)
Theorem direct_relation_from_stmts_exact (id1 id2 : string)
    (S : list Statement) :
  direct_relation_from_stmts id1 id2 S =
  Return (filter (λ st, {[id1; id2]} ⊆ participant_names st) S).
Proof.
  unfold direct_relation_from_stmts. by rewrite from_stmts_loop_filter.
Qed.

Lemma relation_types_loop_map (stmts : list Statement) (types : list string) :
  relation_types_loop stmts types = types ++ map relation_type stmts.
Proof.
  revert types. induction stmts as [|st rest IH]; intros types; simpl.
  - by rewrite app_nil_r.
  - by rewrite IH, <- app_assoc.
Qed.

Lemma relation_types_map (stmts : list Statement) :
  relation_types stmts = map relation_type stmts.
Proof. apply relation_types_loop_map. Qed.

(** ** RelationClassifier: querying the remote store *)

(** When neither query raises, the function returns the answer to the
    forward query alone; the reverse query is sent and its answer dropped. *)
Lemma direct_relation_from_api_forward (capi : RestClient)
    (id1 id2 on_limit : string) (fwd rev : list Statement) (tr : trace) :
  get_statements capi id1 id2 on_limit = Return fwd →
  get_statements capi id2 id1 on_limit = Return rev →
  direct_relation_from_api capi id1 id2 on_limit tr =
  (Return fwd,
   tr ++ [ApiGetStatements id1 id2 on_limit;
          ApiGetStatements id2 id1 on_limit]).
Proof.
  intros Hfwd Hrev. unfold direct_relation_from_api. unfold_SE.
  rewrite Hfwd, Hrev. by rewrite <- app_assoc.
Qed.

(** C1: with a store that answers the forward query (subject A, object B)
    with no statement and the reverse query with one statement, no query
    raises, yet [direct_relation_from_api] returns the empty list: the
    statement of the reverse query is not in the result. *)
Theorem direct_relation_from_api_drops_reverse :
  get_statements Examples.reverse_capi "A" "B" "sample" = Return [] ∧
  get_statements Examples.reverse_capi "B" "A" "sample"
    = Return [Examples.act_BA] ∧
  direct_relation_from_api Examples.reverse_capi "A" "B" "sample" [] =
  (Return [],
   [ApiGetStatements "A" "B" "sample"; ApiGetStatements "B" "A" "sample"]).
Proof. repeat split. Qed.

(** C4, as stated, fails: an empty collection that is supplied is not
    scanned; two queries go to the remote store. *)
Lemma direct_relation_empty_collection_fetches :
  direct_relation Examples.empty_capi "A" "B" [] [] ≠
  (direct_relation_from_stmts "A" "B" [], []).
Proof. by vm_compute. Qed.

(** C4, amended: a non-empty collection is handed to
    [direct_relation_from_stmts] and the trace of interactions is unchanged
    (no query is sent); the empty collection, which is also the default,
    goes to [direct_relation_from_api] with the default [on_limit]. *)
Theorem direct_relation_dispatch (capi : RestClient) (id1 id2 : string)
    (long_stmts : list Statement) (tr : trace) :
  long_stmts ≠ [] →
  direct_relation capi id1 id2 long_stmts tr =
    (direct_relation_from_stmts id1 id2 long_stmts, tr) ∧
  direct_relation capi id1 id2 [] tr =
    direct_relation_from_api capi id1 id2 "sample" tr.
Proof. intros Hne. by destruct long_stmts. Qed.

Lemma direct_relation_dispatch_witness :
  [Examples.phos_AB; Examples.act_CD] ≠ [] ∧
  direct_relation Examples.reverse_capi "A" "B"
      [Examples.phos_AB; Examples.act_CD] [] =
    (direct_relation_from_stmts "A" "B"
       [Examples.phos_AB; Examples.act_CD], []) ∧
  direct_relation Examples.reverse_capi "A" "B" [] [] =
    direct_relation_from_api Examples.reverse_capi "A" "B" "sample" [].
Proof.
  assert (Hne : [Examples.phos_AB; Examples.act_CD] ≠ []) by discriminate.
  split; [exact Hne|].
  exact (direct_relation_dispatch Examples.reverse_capi "A" "B" _ [] Hne).
Defined.

(** C8: when [direct_relation] returns [stmts], [connection_types] returns
    the labels of [stmts] in the same order, followed by ["parent"] exactly
    when [has_common_parent] (default namespaces) holds; the length is the
    number of labels, plus one in that case. *)
Theorem connection_types_labels_then_parent (entity : HierarchyManager)
    (capi : RestClient) (id1 id2 : string) (long_stmts stmts : list Statement)
    (tr tr' : trace) :
  direct_relation capi id1 id2 long_stmts tr = (Return stmts, tr') →
  ∃ ctypes : list string,
    connection_types entity capi id1 id2 long_stmts tr = (Return ctypes, tr') ∧
    ctypes = map relation_type stmts ++
             (if has_common_parent entity "HGNC" id1 "HGNC" id2 "all"
              then ["parent"] else []) ∧
    length ctypes = length stmts +
             (if has_common_parent entity "HGNC" id1 "HGNC" id2 "all"
              then 1 else 0).
Proof.
  intros Hdr. unfold connection_types. unfold_SE. rewrite Hdr.
  rewrite relation_types_map.
  destruct (has_common_parent entity "HGNC" id1 "HGNC" id2 "all").
  - eexists. split; [done|]. split; [done|].
    by rewrite length_app, length_map.
  - eexists. split; [done|]. rewrite app_nil_r. split; [done|].
    rewrite length_map. lia.
Qed.

Lemma connection_types_labels_then_parent_witness :
  direct_relation Examples.empty_capi "A" "B"
    [Examples.phos_AB; Examples.act_CD; Examples.complex_ABC] [] =
    (Return [Examples.phos_AB; Examples.complex_ABC], []) ∧
  connection_types Examples.family_ho Examples.empty_capi "A" "B"
    [Examples.phos_AB; Examples.act_CD; Examples.complex_ABC] [] =
    (Return ["Phosphorylation"; "Complex"; "parent"], []).
Proof.
  assert (Hdr : direct_relation Examples.empty_capi "A" "B"
            [Examples.phos_AB; Examples.act_CD; Examples.complex_ABC] [] =
            (Return [Examples.phos_AB; Examples.complex_ABC], []))
    by (vm_compute; reflexivity).
  split; [exact Hdr|].
  destruct (connection_types_labels_then_parent Examples.family_ho
              _ _ _ _ _ _ _ Hdr) as (ctypes & -> & -> & _).
  vm_compute; reflexivity.
Defined.

(** C2: in a hierarchy where the HGNC genes A and B have a common parent,
    and with a store without statements, [are_connected] answers [False]:
    the lookup is made under the namespace ['HGCN']. *)
Theorem are_connected_misses_common_parent :
  has_common_parent Examples.family_ho "HGNC" "A" "HGNC" "B" "all" = true ∧
  are_connected Examples.family_ho Examples.empty_capi "A" "B" [] [] =
  (Return false,
   [ApiGetStatements "A" "B" "sample"; ApiGetStatements "B" "A" "sample"]).
Proof. split; vm_compute; reflexivity. Qed.

(** C5: a pair with a common parent under HGNC, no parents under ['HGCN']
    and no direct relation is not connected for [are_connected] and has
    the connection type ["parent"] for [connection_types]. *)
Theorem are_connected_connection_types_disagree (entity : HierarchyManager)
    (capi : RestClient) (id1 id2 : string) (long_stmts : list Statement)
    (tr tr' : trace) :
  has_common_parent entity "HGNC" id1 "HGNC" id2 "all" = true →
  find_parent entity "HGCN" id1 "all" = ∅ →
  find_parent entity "HGCN" id2 "all" = ∅ →
  direct_relation capi id1 id2 long_stmts tr = (Return [], tr') →
  are_connected entity capi id1 id2 long_stmts tr = (Return false, tr') ∧
  connection_types entity capi id1 id2 long_stmts tr =
    (Return ["parent"], tr').
Proof.
  intros Hgnc Hgcn1 Hgcn2 Hdr.
  unfold are_connected, connection_types, has_direct_relation.
  assert (has_common_parent entity "HGCN" id1 "HGCN" id2 "all" = false) as ->.
  { unfold has_common_parent, common_parent, set_truthy.
    rewrite Hgcn1, Hgcn2. apply bool_decide_eq_false. set_solver. }
  rewrite Hgnc. unfold_SE. by rewrite Hdr.
Qed.

Lemma are_connected_connection_types_disagree_witness :
  has_common_parent Examples.family_ho "HGNC" "A" "HGNC" "B" "all" = true ∧
  find_parent Examples.family_ho "HGCN" "A" "all" = ∅ ∧
  find_parent Examples.family_ho "HGCN" "B" "all" = ∅ ∧
  direct_relation Examples.empty_capi "A" "B" [] [] =
    (Return [],
     [ApiGetStatements "A" "B" "sample"; ApiGetStatements "B" "A" "sample"]) ∧
  are_connected Examples.family_ho Examples.empty_capi "A" "B" [] [] =
    (Return false,
     [ApiGetStatements "A" "B" "sample"; ApiGetStatements "B" "A" "sample"]) ∧
  connection_types Examples.family_ho Examples.empty_capi "A" "B" [] [] =
    (Return ["parent"],
     [ApiGetStatements "A" "B" "sample"; ApiGetStatements "B" "A" "sample"]).
Proof.
  assert (H1 : has_common_parent Examples.family_ho "HGNC" "A" "HGNC" "B"
                 "all" = true) by (vm_compute; reflexivity).
  assert (H2 : find_parent Examples.family_ho "HGCN" "A" "all" = ∅)
    by (vm_compute; reflexivity).
  assert (H3 : find_parent Examples.family_ho "HGCN" "B" "all" = ∅)
    by (vm_compute; reflexivity).
  assert (H4 : direct_relation Examples.empty_capi "A" "B" [] [] =
                 (Return [],
                  [ApiGetStatements "A" "B" "sample";
                   ApiGetStatements "B" "A" "sample"]))
    by (vm_compute; reflexivity).
  repeat (split; [assumption|]).
  exact (are_connected_connection_types_disagree _ _ _ _ _ _ _ H1 H2 H3 H4).
Defined.

(** ** StatementStore facade: rollback on failure *)

(** A prefix of successful fetches moves the loop to the rest of the ids,
    in the session those fetches lead to. *)
Lemma load_loop_prefix {S} (db : DbClient S) (n : nat)
    (pre rest : list string) (counter : nat) (stmts : gset Statement)
    (s s' : S) (tr : trace) :
  fetches_succeed db pre s = Some s' →
  ∃ stmts' tr',
    load_loop db n (pre ++ rest) counter stmts (s, tr) =
    load_loop db n rest (counter + length pre) stmts' (s', tr').
Proof.
  revert counter stmts s tr.
  induction pre as [|id pre IH]; intros counter stmts s tr Hok; simpl in *.
  - simplify_eq. exists stmts, tr. by rewrite Nat.add_0_r.
  - unfold_db.
    destruct (get_statements_by_gene_role_type db id s) as [[fetched|e] s1];
      [|done].
    case_decide.
    + destruct (IH (counter + 1) (stmts ∪ list_to_set fetched) s1
                  (tr ++ [LogInfo (FinishedQueries (counter + 1) n)]) Hok)
        as (stmts' & tr' & Heq).
      exists stmts', tr'. etrans; [apply Heq|]. f_equal. lia.
    + destruct (IH (counter + 1) (stmts ∪ list_to_set fetched) s1 tr Hok)
        as (stmts' & tr' & Heq).
      exists stmts', tr'. etrans; [apply Heq|]. f_equal. lia.
Qed.

(** C10: when the fetches before some id succeed and the fetch for that id
    raises [StatementError] or [KeyboardInterrupt], [dbc_load_statements]
    raises that same exception, and the session it leaves is the rollback
    of the session in which the fetch failed. *)
Theorem dbc_load_statements_rollback_reraise {S} (db : DbClient S)
    (pre post : list string) (id : string) (e : exn) (s0 sk sf : S)
    (tr0 : trace) :
  db_failure e →
  fetches_succeed db pre s0 = Some sk →
  get_statements_by_gene_role_type db id sk = (Raise e, sf) →
  ∃ tr' : trace,
    dbc_load_statements db (pre ++ id :: post) (s0, tr0) =
    (Raise e, (session_rollback db sf, tr')).
Proof.
  intros He Hpre Hfail. unfold dbc_load_statements.
  destruct (load_loop_prefix db (length (pre ++ id :: post)) pre (id :: post)
              0 ∅ s0 sk tr0 Hpre) as (stmts' & tr' & Hloop).
  exists tr'. unfold try_except. rewrite Hloop. simpl. unfold_db.
  rewrite Hfail. by destruct e.
Qed.

Lemma dbc_load_statements_rollback_reraise_witness :
  db_failure (StatementError "connection lost") ∧
  fetches_succeed (Examples.counting_db (StatementError "connection lost"))
    ["X"; "Y"] 0 = Some 2 ∧
  get_statements_by_gene_role_type
    (Examples.counting_db (StatementError "connection lost")) "BAD" 2
    = (Raise (StatementError "connection lost"), 3) ∧
  ∃ tr' : trace,
    dbc_load_statements (Examples.counting_db (StatementError "connection lost"))
      (["X"; "Y"] ++ "BAD" :: ["Z"]) (0, []) =
    (Raise (StatementError "connection lost"),
     (session_rollback
        (Examples.counting_db (StatementError "connection lost")) 3, tr')).
Proof.
  assert (He : db_failure (StatementError "connection lost")) by exact I.
  assert (Hpre : fetches_succeed
                   (Examples.counting_db (StatementError "connection lost"))
                   ["X"; "Y"] 0 = Some 2) by (vm_compute; reflexivity).
  assert (Hfail : get_statements_by_gene_role_type
                    (Examples.counting_db (StatementError "connection lost"))
                    "BAD" 2
                  = (Raise (StatementError "connection lost"), 3))
    by (vm_compute; reflexivity).
  split; [exact He|]. split; [exact Hpre|]. split; [exact Hfail|].
  exact (dbc_load_statements_rollback_reraise
           (Examples.counting_db (StatementError "connection lost"))
           ["X"; "Y"] ["Z"] "BAD" (StatementError "connection lost")
           0 2 3 [] He Hpre Hfail).
Defined.

(** ** PairIndexBuilder *)

Lemma elem_of_permutations2_from {A} (pre l : list A) (x y : A) :
  NoDup (pre ++ l) →
  (x, y) ∈ permutations2_from pre l ↔ x ∈ l ∧ y ∈ pre ++ l ∧ x ≠ y.
Proof.
  revert pre. induction l as [|x0 post IH]; intros pre Hnd; simpl.
  - set_solver.
  - assert (Hnd' : NoDup ((pre ++ [x0]) ++ post)) by by rewrite <- app_assoc.
    rewrite elem_of_app, (IH _ Hnd'), list_elem_of_fmap.
    apply NoDup_app in Hnd as (Hpre & Hdisj & Hpost).
    apply NoDup_cons in Hpost as [Hx0 Hpost].
    split.
    + intros [(z & Heq & Hz) | (Hx & Hy & Hne)].
      * simplify_eq. split; [set_solver|]. split; [set_solver|].
        intros ->. apply elem_of_app in Hz as [Hz|Hz]; [|done].
        apply (Hdisj _ Hz). set_solver.
      * set_solver.
    + intros (Hx & Hy & Hne). apply elem_of_cons in Hx as [-> | Hx].
      * left. exists y. split; [done|]. set_solver.
      * right. set_solver.
Qed.

Lemma elem_of_permutations2 {A} (l : list A) (x y : A) :
  NoDup l → (x, y) ∈ permutations2 l ↔ x ∈ l ∧ y ∈ l ∧ x ≠ y.
Proof. intros Hnd. by apply (elem_of_permutations2_from []). Qed.

Lemma permutations2_short {A} (l : list A) :
  ¬ 1 < length l → permutations2 l = [].
Proof. destruct l as [|x [|y l]]; simpl; [done | done | lia]. Qed.

(** What one execution of the inner loop body does to the entry of each
    pair. *)
Lemma entry_add_connection (ho : HierarchyManager) (c : string)
    (d : AdjacencyIndex) (x y a b : string) :
  entry (add_connection ho c d (x, y)) a b =
  if decide (x = a ∧ y = b)
  then Some (labels d a b ∪ {[c]} ∪
             (if has_common_parent ho "HGNC" a "HGNC" b "all"
              then {["parent"]} else ∅))
  else entry d a b.
Proof.
  unfold add_connection, labels, entry.
  destruct (decide (x = a)) as [-> | Hxa].
  - rewrite lookup_insert_eq. simpl.
    destruct (decide (y = b)) as [-> | Hyb].
    + rewrite lookup_insert_eq, decide_True by done. f_equal.
      destruct (d !! a) as [inner|]; simpl.
      * destruct (inner !! b);
          destruct (has_common_parent ho "HGNC" a "HGNC" b "all");
          simpl; set_solver.
      * rewrite lookup_empty.
        destruct (has_common_parent ho "HGNC" a "HGNC" b "all");
          simpl; set_solver.
    + rewrite lookup_insert_ne, decide_False by naive_solver.
      destruct (d !! a); simpl; [done | by rewrite lookup_empty].
  - rewrite lookup_insert_ne, decide_False by naive_solver. done.
Qed.

Lemma entry_foldl_add_connection (ho : HierarchyManager) (c : string)
    (ps : list (string * string)) (d : AdjacencyIndex) (a b : string) :
  (is_Some (entry (foldl (add_connection ho c) d ps) a b) ↔
     is_Some (entry d a b) ∨ (a, b) ∈ ps) ∧
  (∀ L, L ∈ labels (foldl (add_connection ho c) d ps) a b ↔
     L ∈ labels d a b ∨ ((a, b) ∈ ps ∧ added_label ho c a b L)).
Proof.
  revert d. induction ps as [|[x y] ps IH]; intros d; simpl.
  - split; [set_solver|]. intros L. set_solver.
  - destruct (IH (add_connection ho c d (x, y))) as [IHe IHl].
    unfold labels in *. rewrite entry_add_connection in IHe, IHl.
    unfold added_label in *.
    split.
    + rewrite IHe. case_decide as Hxy.
      * destruct Hxy as [-> ->]. split; [|by eauto]. intros _. right. left.
      * rewrite elem_of_cons. naive_solver.
    + intros L. rewrite IHl. case_decide as Hxy.
      * destruct Hxy as [-> ->]. simpl. rewrite elem_of_cons.
        destruct (has_common_parent ho "HGNC" a "HGNC" b "all");
          set_solver.
      * rewrite elem_of_cons. naive_solver.
Qed.

Lemma nested_dict_loop_step (ho : HierarchyManager) (st : Statement)
    (rest : list Statement) (d : AdjacencyIndex) :
  nested_dict_loop ho (st :: rest) d =
  nested_dict_loop ho rest
    (if decide (json_type st ≠ "")
     then foldl (add_connection ho (json_type st)) d
            (permutations2 (elements (participant_names st)))
     else d).
Proof.
  simpl. rewrite agent_name_set_returns. simpl.
  destruct (decide (1 < length (elements (participant_names st))))
    as [Hlen|Hlen]; [by case_decide|].
  rewrite (permutations2_short _ Hlen). simpl. by case_decide.
Qed.

Lemma elem_of_permutations2_names (st : Statement) (a b : string) :
  (a, b) ∈ permutations2 (elements (participant_names st)) ↔
  a ≠ b ∧ a ∈ participant_names st ∧ b ∈ participant_names st.
Proof.
  rewrite elem_of_permutations2 by apply NoDup_elements.
  rewrite !elem_of_elements. naive_solver.
Qed.

(** The loop returns, and the index it returns holds, besides what was in
    [d], exactly the contributions of the statements. *)
Lemma nested_dict_loop_spec (ho : HierarchyManager) (stmts : list Statement)
    (d : AdjacencyIndex) :
  ∃ d' : AdjacencyIndex,
    nested_dict_loop ho stmts d = Return d' ∧
    ∀ a b,
      (is_Some (entry d' a b) ↔
         is_Some (entry d a b) ∨ ∃ st, st ∈ stmts ∧ links st a b) ∧
      (∀ L, L ∈ labels d' a b ↔
         L ∈ labels d a b ∨
         ∃ st, st ∈ stmts ∧ links st a b ∧
               added_label ho (json_type st) a b L).
Proof.
  revert d. induction stmts as [|st rest IH]; intros d.
  - exists d. split; [done|]. intros a b. split; [set_solver|].
    intros L. set_solver.
  - rewrite nested_dict_loop_step.
    destruct (IH (if decide (json_type st ≠ "")
                  then foldl (add_connection ho (json_type st)) d
                         (permutations2 (elements (participant_names st)))
                  else d)) as (d' & -> & Hd').
    exists d'. split; [done|]. intros a b.
    destruct (Hd' a b) as [He Hl]. clear Hd'.
    case_decide as Hty.
    + destruct (entry_foldl_add_connection ho (json_type st)
                  (permutations2 (elements (participant_names st))) d a b)
        as [Hfe Hfl].
      split.
      * rewrite He, Hfe, elem_of_permutations2_names. unfold links.
        set_solver.
      * intros L. rewrite Hl, Hfl, elem_of_permutations2_names.
        unfold links. set_solver.
    + split.
      * rewrite He. unfold links. set_solver.
      * intros L. rewrite Hl. unfold links. set_solver.
Qed.

Lemma has_common_parent_sym (ho : HierarchyManager)
    (ns1 id1 ns2 id2 type : string) :
  has_common_parent ho ns1 id1 ns2 id2 type =
  has_common_parent ho ns2 id2 ns1 id1 type.
Proof.
  unfold has_common_parent, common_parent. f_equal. apply (comm_L (∩)).
Qed.

Lemma links_sym (st : Statement) (a b : string) :
  links st a b ↔ links st b a.
Proof. unfold links. naive_solver. Qed.

Lemma added_label_sym (ho : HierarchyManager) (c a b L : string) :
  added_label ho c a b L ↔ added_label ho c b a L.
Proof.
  unfold added_label. by rewrite (has_common_parent_sym ho "HGNC" a).
Qed.

(** [nested_dict_gen] returns; the index is the one the loop builds from the
    empty dictionary, and one line is logged. *)
Lemma nested_dict_gen_returns (ho : HierarchyManager)
    (stmts : list Statement) (tr : trace) :
  ∃ idx : AdjacencyIndex,
    nested_dict_gen ho stmts tr =
      (Return idx, tr ++ [LogInfo (CreatedNestedDict (length stmts))]) ∧
    ∀ a b,
      (is_Some (entry idx a b) ↔ ∃ st, st ∈ stmts ∧ links st a b) ∧
      (∀ L, L ∈ labels idx a b ↔
         ∃ st, st ∈ stmts ∧ links st a b ∧
               added_label ho (json_type st) a b L).
Proof.
  destruct (nested_dict_loop_spec ho stmts ∅) as (idx & Hloop & Hidx).
  exists idx. split.
  - unfold nested_dict_gen. unfold_SE. by rewrite Hloop.
  - intros a b. destruct (Hidx a b) as [He Hl]. split.
    + rewrite He. unfold entry. rewrite lookup_empty. simpl.
      split; [|by eauto]. intros [[? [=]]|]; done.
    + intros L. rewrite Hl. unfold labels, entry. rewrite lookup_empty.
      simpl. set_solver.
Qed.

(** C3, as stated, fails: in a hierarchy where A and B share a parent, the
    index built from no statement has no entry for the pair (A, B). *)
Lemma nested_dict_gen_no_entry_for_shared_ancestor :
  ∃ idx : AdjacencyIndex,
    nested_dict_gen Examples.family_ho [] [] =
      (Return idx, [LogInfo (CreatedNestedDict 0)]) ∧
    ¬ (is_Some (entry idx "A" "B") ↔
         (∃ st, st ∈ [] ∧ co_participants st "A" "B") ∨
         has_common_parent Examples.family_ho "HGNC" "A" "HGNC" "B" "all"
           = true).
Proof.
  exists ∅. split; [reflexivity|].
  intros [_ Hback].
  destruct Hback as [s Hs]; [right; vm_compute; reflexivity|].
  unfold entry in Hs. rewrite lookup_empty in Hs. done.
Qed.

(** C3, amended: the pair [(a, b)] has an entry exactly when some statement
    of the collection with a non-empty relation type has [a] and [b] as two
    different participant names.  A common ancestor creates no entry: it
    adds the label ["parent"] to the entry of a pair that has one.  The
    labels of an entry are the relation types of the statements that link
    the pair and, when the two names have a common parent under HGNC,
    ["parent"]. *)
Theorem nested_dict_gen_entries (ho : HierarchyManager)
    (stmts : list Statement) (tr : trace) :
  ∃ idx : AdjacencyIndex,
    nested_dict_gen ho stmts tr =
      (Return idx, tr ++ [LogInfo (CreatedNestedDict (length stmts))]) ∧
    ∀ a b,
      (is_Some (entry idx a b) ↔
       ∃ st, st ∈ stmts ∧ json_type st ≠ "" ∧ a ≠ b ∧
             co_participants st a b) ∧
      (∀ L, L ∈ labels idx a b ↔
         (∃ st, st ∈ stmts ∧ json_type st ≠ "" ∧ a ≠ b ∧
                co_participants st a b ∧ L = json_type st) ∨
         (L = "parent" ∧ is_Some (entry idx a b) ∧
          has_common_parent ho "HGNC" a "HGNC" b "all" = true)).
Proof.
  destruct (nested_dict_gen_returns ho stmts tr) as (idx & Hrun & Hidx).
  exists idx. split; [done|]. intros a b.
  destruct (Hidx a b) as [He Hl]. split.
  - rewrite He. unfold links, co_participants. naive_solver.
  - intros L. rewrite Hl, He.
    unfold added_label, links, co_participants. naive_solver.
Qed.

(** C6: the index is symmetric: for every pair the entries of [(a, b)] and
    of [(b, a)] coincide, so a label (["parent"] included) is recorded for
    one exactly when it is recorded for the other. *)
Theorem nested_dict_gen_symmetric (ho : HierarchyManager)
    (stmts : list Statement) (tr : trace) :
  ∃ idx : AdjacencyIndex,
    nested_dict_gen ho stmts tr =
      (Return idx, tr ++ [LogInfo (CreatedNestedDict (length stmts))]) ∧
    ∀ a b,
      entry idx a b = entry idx b a ∧
      ∀ L, L ∈ labels idx a b ↔ L ∈ labels idx b a.
Proof.
  destruct (nested_dict_gen_returns ho stmts tr) as (idx & Hrun & Hidx).
  exists idx. split; [done|]. intros a b.
  assert (Hlab : ∀ L, L ∈ labels idx a b ↔ L ∈ labels idx b a).
  { intros L. destruct (Hidx a b) as [_ ->]. destruct (Hidx b a) as [_ ->].
    split; intros (st & Hin & Hlk & Hadd); exists st;
      (split; [done|]); (split; [by apply links_sym|]);
      by apply added_label_sym. }
  split; [|done].
  assert (Hsome : is_Some (entry idx a b) ↔ is_Some (entry idx b a)).
  { destruct (Hidx a b) as [-> _]. destruct (Hidx b a) as [-> _].
    split; intros (st & Hin & Hlk); exists st;
      (split; [done|]); by apply links_sym. }
  unfold labels in Hlab.
  destruct (entry idx a b) as [s|], (entry idx b a) as [s'|]; simpl in *.
  - f_equal. by apply set_eq.
  - destruct Hsome as [H _]. by destruct H.
  - destruct Hsome as [_ H]. by destruct H.
  - done.
Qed.

(** The example of the specification: three statements over A, B and C. *)
Example nested_dict_gen_three_statements :
  ∃ idx : AdjacencyIndex,
    (nested_dict_gen Examples.family_ho
       [Examples.phos_AB; Examples.act_BA; Examples.complex_ABC] []).1
      = Return idx ∧
    labels idx "A" "B" =
      {["Phosphorylation"; "Activation"; "Complex"; "parent"]} ∧
    labels idx "B" "A" = labels idx "A" "B" ∧
    labels idx "A" "C" = {["Complex"]} ∧
    labels idx "C" "A" = {["Complex"]}.
Proof. eexists. split; [reflexivity|]. by vm_compute. Qed.

(** * Further properties of the module *)

(** ** HierarchyLookup *)

(** X1: [has_common_parent] does not depend on the order in which the two
    (namespace, id) pairs are given, and neither does [common_parent]. *)
Theorem has_common_parent_symmetric (ho : HierarchyManager)
    (ns1 id1 ns2 id2 type : string) :
  common_parent ho ns1 id1 ns2 id2 type = common_parent ho ns2 id2 ns1 id1 type ∧
  has_common_parent ho ns1 id1 ns2 id2 type =
  has_common_parent ho ns2 id2 ns1 id1 type.
Proof.
  assert (Hc : common_parent ho ns1 id1 ns2 id2 type =
               common_parent ho ns2 id2 ns1 id1 type).
  { unfold common_parent. set_solver. }
  split; [done|]. unfold has_common_parent. by rewrite Hc.
Qed.

(** X2: [has_common_parent] is true exactly when some node is a parent of
    both ids; an id without parents (an id the hierarchy does not know)
    has a common parent with nothing. *)
Theorem has_common_parent_iff (ho : HierarchyManager)
    (ns1 id1 ns2 id2 type : string) :
  (has_common_parent ho ns1 id1 ns2 id2 type = true ↔
     ∃ p, p ∈ find_parent ho ns1 id1 type ∧ p ∈ find_parent ho ns2 id2 type) ∧
  (find_parent ho ns1 id1 type = ∅ ∨ find_parent ho ns2 id2 type = ∅ →
     has_common_parent ho ns1 id1 ns2 id2 type = false).
Proof.
  unfold has_common_parent, common_parent, set_truthy. split.
  - rewrite bool_decide_eq_true. split.
    + intros Hne. apply set_choose_L in Hne as [p Hp]. exists p. set_solver.
    + intros (p & H1 & H2). set_solver.
  - intros Hempty. apply bool_decide_eq_false. set_solver.
Qed.

(** ** AgentExtractor *)

Lemma omap_name_filter_present (l : list (option Agent)) :
  omap (fmap name) (filter is_Some l) = omap (fmap name) l.
Proof.
  induction l as [|[a|] l IH]; [done| |].
  - rewrite filter_cons_True by done. cbn -[filter list_filter].
    by rewrite IH.
  - rewrite filter_cons_False by (by intros [? [=]]). done.
Qed.

(** X3: the two paths of [agent_name_set] agree: on any statement it
    returns what it returns, through the first path, on the statement with
    the [None] participants removed; the result is never an exception. *)
Theorem agent_name_set_ignores_none (st : Statement) :
  map_name (filter is_Some (agent_list st)) =
    Return (omap (fmap name) (agent_list st)) ∧
  agent_name_set st =
    agent_name_set {| agent_list := filter is_Some (agent_list st);
                      json_type := json_type st |} ∧
  agent_name_set st = Return (participant_names st).
Proof.
  assert (Hnone : None ∉ filter is_Some (agent_list st)).
  { rewrite list_elem_of_filter. by intros [[? [=]] _]. }
  pose proof (omap_name_filter_present (agent_list st)) as Homap.
  split; [by rewrite map_name_present, Homap|].
  split; [|apply agent_name_set_returns].
  rewrite !agent_name_set_returns. unfold participant_names. simpl.
  by rewrite Homap.
Qed.

(** ** RelationClassifier, on a supplied collection *)

(** X4: [direct_relation_from_stmts] does not depend on the order of the
    two ids. *)
Theorem direct_relation_from_stmts_symmetric (id1 id2 : string)
    (S : list Statement) :
  direct_relation_from_stmts id1 id2 S = direct_relation_from_stmts id2 id1 S.
Proof.
  unfold direct_relation_from_stmts.
  by replace ({[id2; id1]} : gset string) with ({[id1; id2]} : gset string)
    by set_solver.
Qed.

(** X5: the statements [direct_relation_from_stmts] returns form a sublist
    of the collection (same order, nothing new), each of them mentions both
    ids, and scanning the result again changes nothing. *)
Theorem direct_relation_from_stmts_sublist (id1 id2 : string)
    (S : list Statement) :
  ∃ out : list Statement,
    direct_relation_from_stmts id1 id2 S = Return out ∧
    out `sublist_of` S ∧
    (∀ st, st ∈ out → mentions_both id1 id2 st) ∧
    direct_relation_from_stmts id1 id2 out = Return out.
Proof.
  unfold direct_relation_from_stmts. rewrite from_stmts_loop_filter. simpl.
  eexists. split; [done|]. split; [apply sublist_filter|]. split.
  - intros st Hin. by apply list_elem_of_filter in Hin as [? _].
  - rewrite from_stmts_loop_filter. simpl. f_equal.
    rewrite list_filter_filter. apply list_filter_iff. naive_solver.
Qed.

(** X6: over a concatenation of collections the scan is the concatenation
    of the scans. *)
Theorem direct_relation_from_stmts_app (id1 id2 : string)
    (S1 S2 : list Statement) :
  ∃ out1 out2 : list Statement,
    direct_relation_from_stmts id1 id2 S1 = Return out1 ∧
    direct_relation_from_stmts id1 id2 S2 = Return out2 ∧
    direct_relation_from_stmts id1 id2 (S1 ++ S2) = Return (out1 ++ out2).
Proof.
  unfold direct_relation_from_stmts. rewrite !from_stmts_loop_filter. simpl.
  eexists _, _. split; [done|]. split; [done|]. by rewrite filter_app.
Qed.

(** X7: [relation_types] keeps the length, the order and the duplicates of
    its input: the label at each position is the relation type of the
    statement at that position. *)
Theorem relation_types_pointwise (stmts : list Statement) :
  length (relation_types stmts) = length stmts ∧
  ∀ i, relation_types stmts !! i = relation_type <$> stmts !! i.
Proof.
  rewrite relation_types_map. split; [apply length_map|].
  intros i. apply (list_lookup_fmap relation_type).
Qed.

(** ** RelationClassifier, querying the remote store *)

(** X8: when the forward entity query is rejected with [IndraDBRestError],
    the reverse entity query is not sent; the two text queries are, and the
    answer to the forward text query is returned. *)
Theorem direct_relation_from_api_text_fallback (capi : RestClient)
    (id1 id2 on_limit : string) (fwd rev : list Statement) (tr : trace) :
  get_statements capi id1 id2 on_limit = Raise IndraDBRestError →
  get_statements capi (id1 +:+ "@TEXT") (id2 +:+ "@TEXT") on_limit
    = Return fwd →
  get_statements capi (id2 +:+ "@TEXT") (id1 +:+ "@TEXT") on_limit
    = Return rev →
  direct_relation_from_api capi id1 id2 on_limit tr =
  (Return fwd,
   tr ++ [ApiGetStatements id1 id2 on_limit;
          ApiGetStatements (id1 +:+ "@TEXT") (id2 +:+ "@TEXT") on_limit;
          ApiGetStatements (id2 +:+ "@TEXT") (id1 +:+ "@TEXT") on_limit]).
Proof.
  intros H1 H2 H3. unfold direct_relation_from_api. unfold_SE.
  rewrite H1, H2, H3. by rewrite <- !app_assoc.
Qed.

Lemma direct_relation_from_api_text_fallback_witness :
  direct_relation_from_api Examples.text_capi "A" "B" "sample" [] =
  (Return [Examples.phos_AB],
   [ApiGetStatements "A" "B" "sample";
    ApiGetStatements "A@TEXT" "B@TEXT" "sample";
    ApiGetStatements "B@TEXT" "A@TEXT" "sample"]).
Proof.
  apply (direct_relation_from_api_text_fallback Examples.text_capi
           "A" "B" "sample" [Examples.phos_AB] [] []); reflexivity.
Defined.

(** X9: when the forward entity query succeeds and the reverse one is
    rejected with [IndraDBRestError], the forward answer is given up: the
    text queries are sent and the answer to the forward text query is
    returned. *)
Theorem direct_relation_from_api_fallback_after_reverse (capi : RestClient)
    (id1 id2 on_limit : string) (fst_try fwd rev : list Statement)
    (tr : trace) :
  get_statements capi id1 id2 on_limit = Return fst_try →
  get_statements capi id2 id1 on_limit = Raise IndraDBRestError →
  get_statements capi (id1 +:+ "@TEXT") (id2 +:+ "@TEXT") on_limit
    = Return fwd →
  get_statements capi (id2 +:+ "@TEXT") (id1 +:+ "@TEXT") on_limit
    = Return rev →
  direct_relation_from_api capi id1 id2 on_limit tr =
  (Return fwd,
   tr ++ [ApiGetStatements id1 id2 on_limit;
          ApiGetStatements id2 id1 on_limit;
          ApiGetStatements (id1 +:+ "@TEXT") (id2 +:+ "@TEXT") on_limit;
          ApiGetStatements (id2 +:+ "@TEXT") (id1 +:+ "@TEXT") on_limit]).
Proof.
  intros H0 H1 H2 H3. unfold direct_relation_from_api. unfold_SE.
  rewrite H0, H1, H2, H3. by rewrite <- !app_assoc.
Qed.

Lemma direct_relation_from_api_fallback_after_reverse_witness :
  direct_relation_from_api Examples.half_capi "A" "B" "sample" [] =
  (Return [Examples.phos_AB],
   [ApiGetStatements "A" "B" "sample";
    ApiGetStatements "B" "A" "sample";
    ApiGetStatements "A@TEXT" "B@TEXT" "sample";
    ApiGetStatements "B@TEXT" "A@TEXT" "sample"]).
Proof.
  apply (direct_relation_from_api_fallback_after_reverse Examples.half_capi
           "A" "B" "sample" [Examples.act_BA] [Examples.phos_AB] [] []);
    reflexivity.
Defined.

(** X10: an exception of the forward entity query other than
    [IndraDBRestError] reaches the caller as it is, after that single
    query: there is no retry and no text query. *)
Theorem direct_relation_from_api_other_error (capi : RestClient)
    (id1 id2 on_limit : string) (e : exn) (tr : trace) :
  e ≠ IndraDBRestError →
  get_statements capi id1 id2 on_limit = Raise e →
  direct_relation_from_api capi id1 id2 on_limit tr =
  (Raise e, tr ++ [ApiGetStatements id1 id2 on_limit]).
Proof.
  intros Hne H1. unfold direct_relation_from_api. unfold_SE.
  rewrite H1. by destruct e.
Qed.

Lemma direct_relation_from_api_other_error_witness :
  direct_relation_from_api Examples.down_capi "A" "B" "sample" [] =
  (Raise (OtherError "connection refused"),
   [ApiGetStatements "A" "B" "sample"]).
Proof.
  apply (direct_relation_from_api_other_error Examples.down_capi
           "A" "B" "sample" (OtherError "connection refused") []);
    [discriminate | reflexivity].
Defined.

(** X11: inside the fallback nothing is caught: when the entity query is
    rejected and the forward text query raises, whatever it raises (an
    [IndraDBRestError] too) reaches the caller. *)
Theorem direct_relation_from_api_fallback_error (capi : RestClient)
    (id1 id2 on_limit : string) (e : exn) (tr : trace) :
  get_statements capi id1 id2 on_limit = Raise IndraDBRestError →
  get_statements capi (id1 +:+ "@TEXT") (id2 +:+ "@TEXT") on_limit
    = Raise e →
  direct_relation_from_api capi id1 id2 on_limit tr =
  (Raise e,
   tr ++ [ApiGetStatements id1 id2 on_limit;
          ApiGetStatements (id1 +:+ "@TEXT") (id2 +:+ "@TEXT") on_limit]).
Proof.
  intros H1 H2. unfold direct_relation_from_api. unfold_SE.
  rewrite H1, H2. by rewrite <- !app_assoc.
Qed.

Lemma direct_relation_from_api_fallback_error_witness :
  direct_relation_from_api Examples.text_capi "C" "D" "sample" [] =
  (Raise IndraDBRestError,
   [ApiGetStatements "C" "D" "sample";
    ApiGetStatements "C@TEXT" "D@TEXT" "sample"]).
Proof.
  apply (direct_relation_from_api_fallback_error Examples.text_capi
           "C" "D" "sample" IndraDBRestError []); reflexivity.
Defined.

(** ** RelationClassifier: connectivity *)

Lemma list_truthy_filter {A} (P : A → Prop) `{!∀ x, Decision (P x)}
    (l : list A) :
  list_truthy (filter P l) = bool_decide (Exists P l).
Proof.
  induction l as [|x l IH]; [done|].
  rewrite filter_cons. case_decide as HP; simpl.
  - symmetry. apply bool_decide_eq_true. by left.
  - rewrite IH. apply bool_decide_ext. rewrite Exists_cons. naive_solver.
Qed.

(** X12: on a supplied non-empty collection [are_connected] sends nothing
    to the remote store, and answers true exactly when the ids have a
    common parent under the namespace ['HGCN'] or some statement of the
    collection mentions both ids. *)
Theorem are_connected_supplied (entity : HierarchyManager) (capi : RestClient)
    (id1 id2 : string) (long_stmts : list Statement) (tr : trace) :
  long_stmts ≠ [] →
  are_connected entity capi id1 id2 long_stmts tr =
  (Return (has_common_parent entity "HGCN" id1 "HGCN" id2 "all" ||
           bool_decide (Exists (mentions_both id1 id2) long_stmts)), tr).
Proof.
  intros Hne. unfold are_connected, has_direct_relation.
  destruct (has_common_parent entity "HGCN" id1 "HGCN" id2 "all"); [done|].
  destruct long_stmts as [|st rest]; [done|]. unfold direct_relation.
  unfold direct_relation_from_stmts. rewrite from_stmts_loop_filter.
  unfold_SE.
  by rewrite (list_truthy_filter (λ st, {[id1; id2]} ⊆ participant_names st)).
Qed.

Lemma are_connected_supplied_witness :
  [Examples.act_CD; Examples.complex_ABC] ≠ [] ∧
  are_connected Examples.family_ho Examples.down_capi "A" "C"
    [Examples.act_CD; Examples.complex_ABC] [] = (Return true, []).
Proof.
  assert (Hne : [Examples.act_CD; Examples.complex_ABC] ≠ []) by discriminate.
  split; [exact Hne|].
  rewrite (are_connected_supplied Examples.family_ho Examples.down_capi
             "A" "C" _ [] Hne).
  vm_compute; reflexivity.
Defined.

(** X13: on a supplied non-empty collection [connection_types] sends
    nothing to the remote store and returns the relation types of the
    statements that mention both ids, in the order of the collection, and
    then ["parent"] when the ids have a common parent under HGNC. *)
Theorem connection_types_supplied (entity : HierarchyManager)
    (capi : RestClient) (id1 id2 : string) (long_stmts : list Statement)
    (tr : trace) :
  long_stmts ≠ [] →
  connection_types entity capi id1 id2 long_stmts tr =
  (Return (map relation_type (filter (mentions_both id1 id2) long_stmts) ++
           (if has_common_parent entity "HGNC" id1 "HGNC" id2 "all"
            then ["parent"] else [])), tr).
Proof.
  intros Hne. unfold connection_types.
  destruct long_stmts as [|st rest]; [done|]. unfold direct_relation.
  unfold direct_relation_from_stmts. rewrite from_stmts_loop_filter.
  unfold_SE.
  rewrite relation_types_map.
  destruct (has_common_parent entity "HGNC" id1 "HGNC" id2 "all");
    [done | by rewrite app_nil_r].
Qed.

Lemma connection_types_supplied_witness :
  [Examples.act_BA; Examples.act_CD; Examples.complex_ABC] ≠ [] ∧
  connection_types Examples.family_ho Examples.down_capi "A" "B"
    [Examples.act_BA; Examples.act_CD; Examples.complex_ABC] [] =
  (Return ["Activation"; "Complex"; "parent"], []).
Proof.
  assert (Hne : [Examples.act_BA; Examples.act_CD; Examples.complex_ABC] ≠ [])
    by discriminate.
  split; [exact Hne|].
  rewrite (connection_types_supplied Examples.family_ho Examples.down_capi
             "A" "B" _ [] Hne).
  vm_compute; reflexivity.
Defined.



(** X15: where the hierarchy gives the same answer under ['HGCN'] and
    under ['HGNC'], the two classifiers agree whenever [direct_relation]
    returns: [are_connected] answers true exactly when [connection_types]
    returns a non-empty list. *)
Theorem are_connected_iff_connection_types (entity : HierarchyManager)
    (capi : RestClient) (id1 id2 : string) (long_stmts stmts : list Statement)
    (tr tr' : trace) :
  has_common_parent entity "HGCN" id1 "HGCN" id2 "all" =
    has_common_parent entity "HGNC" id1 "HGNC" id2 "all" →
  direct_relation capi id1 id2 long_stmts tr = (Return stmts, tr') →
  ∃ (b : bool) (ctypes : list string),
    (are_connected entity capi id1 id2 long_stmts tr).1 = Return b ∧
    (connection_types entity capi id1 id2 long_stmts tr).1 = Return ctypes ∧
    (b = true ↔ ctypes ≠ []).
Proof.
  intros Hns Hdr.
  unfold are_connected, connection_types, has_direct_relation.
  rewrite Hns. unfold_SE. rewrite Hdr. rewrite relation_types_map.
  destruct (has_common_parent entity "HGNC" id1 "HGNC" id2 "all"); simpl.
  - exists true, (map relation_type stmts ++ ["parent"]).
    split; [done|]. split; [done|].
    split; [|done]. intros _. by destruct (map relation_type stmts).
  - rewrite Hdr. exists (list_truthy stmts), (map relation_type stmts).
    split; [done|]. split; [done|].
    destruct stmts; simpl; naive_solver.
Qed.

Lemma are_connected_iff_connection_types_witness :
  ∃ (b : bool) (ctypes : list string),
    (are_connected Examples.flat_ho Examples.reverse_capi "B" "A" [] []).1
      = Return b ∧
    (connection_types Examples.flat_ho Examples.reverse_capi "B" "A" [] []).1
      = Return ctypes ∧
    (b = true ↔ ctypes ≠ []).
Proof.
  apply (are_connected_iff_connection_types Examples.flat_ho
           Examples.reverse_capi "B" "A" [] [Examples.act_BA] []
           [ApiGetStatements "B" "A" "sample";
            ApiGetStatements "A" "B" "sample"]);
    vm_compute; reflexivity.
Defined.

(** X16: an exception of [direct_relation] is not absorbed by the
    classifiers built on it: [has_direct_relation] and [connection_types]
    raise it, and so does [are_connected] unless a common parent under
    ['HGCN'] ends it before. *)
Theorem classifiers_propagate_errors (entity : HierarchyManager)
    (capi : RestClient) (id1 id2 : string) (long_stmts : list Statement)
    (e : exn) (tr tr' : trace) :
  direct_relation capi id1 id2 long_stmts tr = (Raise e, tr') →
  has_direct_relation capi id1 id2 long_stmts tr = (Raise e, tr') ∧
  connection_types entity capi id1 id2 long_stmts tr = (Raise e, tr') ∧
  (has_common_parent entity "HGCN" id1 "HGCN" id2 "all" = false →
   are_connected entity capi id1 id2 long_stmts tr = (Raise e, tr')).
Proof.
  intros Hdr. unfold are_connected, connection_types, has_direct_relation.
  unfold_SE. rewrite Hdr. split; [done|]. split; [done|].
  intros ->. by rewrite Hdr.
Qed.

Lemma classifiers_propagate_errors_witness :
  has_direct_relation Examples.down_capi "A" "B" [] [] =
    (Raise (OtherError "connection refused"),
     [ApiGetStatements "A" "B" "sample"]) ∧
  connection_types Examples.family_ho Examples.down_capi "A" "B" [] [] =
    (Raise (OtherError "connection refused"),
     [ApiGetStatements "A" "B" "sample"]) ∧
  (has_common_parent Examples.family_ho "HGCN" "A" "HGCN" "B" "all" = false →
   are_connected Examples.family_ho Examples.down_capi "A" "B" [] [] =
     (Raise (OtherError "connection refused"),
      [ApiGetStatements "A" "B" "sample"])).
Proof.
  apply (classifiers_propagate_errors Examples.family_ho Examples.down_capi
           "A" "B" [] (OtherError "connection refused") []).
  vm_compute; reflexivity.
Defined.

(** ** StatementStore facade: the complete load and its progress lines *)

Lemma progress_lines_step (counter len n : nat) :
  progress_lines counter (S len) n =
  (if decide ((counter + 1) `mod` progress_interval n = 0)
   then [LogInfo (FinishedQueries (counter + 1) n)] else []) ++
  progress_lines (counter + 1) len n.
Proof.
  unfold progress_lines. rewrite Nat.add_1_r. simpl seq.
  rewrite filter_cons. by case_decide.
Qed.

Lemma load_loop_complete {S} (db : DbClient S) (n : nat) (ids : list string)
    (counter : nat) (stmts : gset Statement) (s sf : S) (tr : trace)
    (ls : list (list Statement)) :
  fetch_all db ids s = Some (ls, sf) →
  load_loop db n ids counter stmts (s, tr) =
  (Return (stmts ∪ ⋃ (list_to_set <$> ls : list (gset Statement))),
   (sf, tr ++ progress_lines counter (length ids) n)).
Proof.
  revert counter stmts s tr ls.
  induction ids as [|id rest IH]; intros counter stmts s tr ls Hall;
    simpl in Hall.
  - simplify_eq. simpl. unfold mret, SE_ret, progress_lines. simpl.
    rewrite app_nil_r. do 2 f_equal. set_solver.
  - destruct (get_statements_by_gene_role_type db id s)
      as [[fetched|e] s1] eqn:Hfetch; [|done].
    destruct (fetch_all db rest s1) as [[ls' sf']|] eqn:Hrest; [|done].
    simplify_eq. simpl length. rewrite progress_lines_step.
    simpl load_loop. unfold_db. rewrite Hfetch.
    unfold progress_interval.
    case_decide.
    + etrans; [apply (IH _ _ _ _ _ Hrest)|].
      rewrite decide_True by exact H. simpl.
      rewrite <- app_assoc. do 2 f_equal. set_solver.
    + etrans; [apply (IH _ _ _ _ _ Hrest)|].
      rewrite decide_False by exact H. simpl.
      do 2 f_equal. set_solver.
Qed.

(** X17: when no fetch raises, [dbc_load_statements] returns the set of all
    the statements fetched (each once), leaves the session the fetches lead
    to (no rollback), and logs a progress line after exactly those fetches
    whose count is a multiple of the interval. *)
Theorem dbc_load_statements_complete {S} (db : DbClient S)
    (hgnc_ids : list string) (s0 sf : S) (tr0 : trace)
    (ls : list (list Statement)) :
  fetch_all db hgnc_ids s0 = Some (ls, sf) →
  dbc_load_statements db hgnc_ids (s0, tr0) =
  (Return (⋃ (list_to_set <$> ls : list (gset Statement))),
   (sf, tr0 ++ progress_lines 0 (length hgnc_ids) (length hgnc_ids))).
Proof.
  intros Hall. unfold dbc_load_statements, try_except.
  rewrite (load_loop_complete db _ _ 0 ∅ s0 sf tr0 ls Hall).
  do 2 f_equal. set_solver.
Qed.

Lemma dbc_load_statements_complete_witness :
  fetch_all (Examples.counting_db KeyboardInterrupt) ["X"; "Y"] 0 =
    Some ([[Examples.phos_AB]; [Examples.phos_AB]], 2) ∧
  dbc_load_statements (Examples.counting_db KeyboardInterrupt) ["X"; "Y"]
    (0, []) = (Return {[Examples.phos_AB]}, (2, [])).
Proof.
  assert (Hall : fetch_all (Examples.counting_db KeyboardInterrupt)
                   ["X"; "Y"] 0 =
                 Some ([[Examples.phos_AB]; [Examples.phos_AB]], 2))
    by (vm_compute; reflexivity).
  split; [exact Hall|].
  rewrite (dbc_load_statements_complete _ _ _ _ [] _ Hall).
  vm_compute; reflexivity.
Defined.






(** X20: an exception of a fetch that is neither a [StatementError] nor a
    [KeyboardInterrupt] reaches the caller as it is, and the session is left
    as the failed fetch left it: no rollback is made. *)
Theorem dbc_load_statements_unhandled_error {S} (db : DbClient S)
    (pre post : list string) (id : string) (e : exn) (s0 sk sf : S)
    (tr0 : trace) :
  ¬ db_failure e →
  fetches_succeed db pre s0 = Some sk →
  get_statements_by_gene_role_type db id sk = (Raise e, sf) →
  ∃ tr' : trace,
    dbc_load_statements db (pre ++ id :: post) (s0, tr0) =
    (Raise e, (sf, tr')).
Proof.
  intros He Hpre Hfail. unfold dbc_load_statements.
  destruct (load_loop_prefix db (length (pre ++ id :: post)) pre (id :: post)
              0 ∅ s0 sk tr0 Hpre) as (stmts' & tr' & Hloop).
  exists tr'. unfold try_except. rewrite Hloop. simpl. unfold_db.
  rewrite Hfail. by destruct e.
Qed.

Lemma dbc_load_statements_unhandled_error_witness :
  ∃ tr' : trace,
    dbc_load_statements (Examples.counting_db (OtherError "timeout"))
      (["X"] ++ "BAD" :: ["Y"]) (0, []) =
    (Raise (OtherError "timeout"), (2, tr')).
Proof.
  apply (dbc_load_statements_unhandled_error
           (Examples.counting_db (OtherError "timeout")) ["X"] ["Y"] "BAD"
           (OtherError "timeout") 0 1 2 []).
  - intros [].
  - vm_compute; reflexivity.
  - vm_compute; reflexivity.
Defined.

(** ** PairIndexBuilder: the content of the index *)

(** X21: [itertools.permutations(l, r=2)] yields a pair for every choice of
    two different positions: [n * (n - 1)] pairs for a list of length [n]. *)
Theorem permutations2_length {A} (l : list A) :
  length (permutations2 l) = length l * (length l - 1).
Proof.
  unfold permutations2.
  assert (Hgen : ∀ pre : list A,
            length (permutations2_from pre l) =
            length l * (length pre + length l - 1)).
  { induction l as [|x post IH]; intros pre; simpl; [done|].
    rewrite length_app, length_fmap, length_app, IH, length_app. simpl.
    nia. }
  by rewrite Hgen.
Qed.

Lemma row_add_connection (ho : HierarchyManager) (c : string)
    (d : AdjacencyIndex) (x y a : string) :
  is_Some (add_connection ho c d (x, y) !! a) ↔ x = a ∨ is_Some (d !! a).
Proof.
  unfold add_connection. destruct (decide (x = a)) as [-> | Hxa].
  - rewrite lookup_insert_eq. naive_solver.
  - rewrite lookup_insert_ne by done. naive_solver.
Qed.

Lemma row_foldl_add_connection (ho : HierarchyManager) (c : string)
    (ps : list (string * string)) (d : AdjacencyIndex) (a : string) :
  is_Some (foldl (add_connection ho c) d ps !! a) ↔
  is_Some (d !! a) ∨ ∃ b, (a, b) ∈ ps.
Proof.
  revert d. induction ps as [|[x y] ps IH]; intros d.
  - simpl. set_solver.
  - cbn [foldl]. rewrite IH, row_add_connection. split.
    + intros [[-> | Hd] | (b & Hb)].
      * right. exists y. left.
      * by left.
      * right. exists b. by right.
    + intros [Hd | (b & Hb)]; [by left; right|].
      apply elem_of_cons in Hb as [[= -> ->] | Hb]; [by left; left|].
      right. by exists b.
Qed.

Lemma nested_dict_loop_rows (ho : HierarchyManager) (stmts : list Statement)
    (d d' : AdjacencyIndex) (a : string) :
  nested_dict_loop ho stmts d = Return d' →
  is_Some (d' !! a) ↔
  is_Some (d !! a) ∨ ∃ st b, st ∈ stmts ∧ links st a b.
Proof.
  revert d. induction stmts as [|st rest IH]; intros d Hloop.
  - simpl in Hloop. simplify_eq. set_solver.
  - rewrite nested_dict_loop_step in Hloop. rewrite (IH _ Hloop).
    case_decide as Hty.
    + rewrite row_foldl_add_connection.
      setoid_rewrite elem_of_permutations2_names. unfold links.
      split.
      * intros [[Hd | (b & Hb)] | (st' & b & Hin & Hlk)].
        -- by left.
        -- right. exists st, b. split; [left|]. naive_solver.
        -- right. exists st', b. split; [by right | done].
      * intros [Hd | (st' & b & Hin & Hlk)]; [by left; left|].
        apply elem_of_cons in Hin as [-> | Hin].
        -- left. right. exists b. naive_solver.
        -- right. by exists st', b.
    + unfold links. split.
      * intros [Hd | (st' & b & Hin & Hlk)]; [by left|].
        right. exists st', b. split; [by right | done].
      * intros [Hd | (st' & b & Hin & Hlk)]; [by left|].
        apply elem_of_cons in Hin as [-> | Hin]; [naive_solver|].
        right. by exists st', b.
Qed.

(** Two indexes with the same rows and the same entries are equal. *)
Lemma index_ext (d1 d2 : AdjacencyIndex) :
  (∀ a, is_Some (d1 !! a) ↔ is_Some (d2 !! a)) →
  (∀ a b, entry d1 a b = entry d2 a b) →
  d1 = d2.
Proof.
  intros Hrow Hent. apply map_eq. intros a.
  destruct (d1 !! a) as [m1|] eqn:H1, (d2 !! a) as [m2|] eqn:H2.
  - f_equal. apply map_eq. intros b. specialize (Hent a b).
    unfold entry in Hent. by rewrite H1, H2 in Hent.
  - destruct (Hrow a) as [Hr _]. rewrite H1, H2 in Hr.
    destruct Hr as [? [=]]. by eexists.
  - destruct (Hrow a) as [_ Hr]. rewrite H1, H2 in Hr.
    destruct Hr as [? [=]]. by eexists.
  - done.
Qed.

Lemma entry_eq_of_labels (e1 e2 : option (gset string)) :
  (is_Some e1 ↔ is_Some e2) →
  (∀ L, L ∈ default ∅ e1 ↔ L ∈ default ∅ e2) →
  e1 = e2.
Proof.
  intros Hsome Hlab. destruct e1 as [s1|], e2 as [s2|]; simpl in *.
  - f_equal. by apply set_eq.
  - destruct Hsome as [H _]. by destruct H.
  - destruct Hsome as [_ H]. by destruct H.
  - done.
Qed.

(** Everything about the index that [nested_dict_gen] returns. *)
Lemma nested_dict_gen_content (ho : HierarchyManager)
    (stmts : list Statement) (tr : trace) :
  ∃ idx : AdjacencyIndex,
    nested_dict_gen ho stmts tr =
      (Return idx, tr ++ [LogInfo (CreatedNestedDict (length stmts))]) ∧
    (∀ a, is_Some (idx !! a) ↔ ∃ st b, st ∈ stmts ∧ links st a b) ∧
    (∀ a b, is_Some (entry idx a b) ↔ ∃ st, st ∈ stmts ∧ links st a b) ∧
    (∀ a b L, L ∈ labels idx a b ↔
       ∃ st, st ∈ stmts ∧ links st a b ∧
             added_label ho (json_type st) a b L).
Proof.
  destruct (nested_dict_loop_spec ho stmts ∅) as (idx & Hloop & Hidx).
  exists idx. split; [|split; [|split]].
  - unfold nested_dict_gen. unfold_SE. by rewrite Hloop.
  - intros a. rewrite (nested_dict_loop_rows _ _ _ _ a Hloop).
    rewrite lookup_empty. split; [|by eauto].
    intros [[? [=]]|]; done.
  - intros a b. destruct (Hidx a b) as [He _]. rewrite He.
    unfold entry. rewrite lookup_empty. simpl.
    split; [|by eauto]. intros [[? [=]]|]; done.
  - intros a b L. destruct (Hidx a b) as [_ Hl]. rewrite Hl.
    unfold labels, entry. rewrite lookup_empty. simpl. set_solver.
Qed.

(** X22: no name is paired with itself, every entry holds the (non-empty)
    relation type of one of the statements, and no row of the index is
    empty. *)
Theorem nested_dict_gen_no_self_pairs (ho : HierarchyManager)
    (stmts : list Statement) (tr : trace) :
  ∃ idx : AdjacencyIndex,
    (nested_dict_gen ho stmts tr).1 = Return idx ∧
    (∀ a, entry idx a a = None) ∧
    (∀ a b s, entry idx a b = Some s →
       a ≠ b ∧ ∃ st, st ∈ stmts ∧ json_type st ≠ "" ∧ json_type st ∈ s) ∧
    (∀ a m, idx !! a = Some m → ∃ b s, m !! b = Some s).
Proof.
  destruct (nested_dict_gen_content ho stmts tr)
    as (idx & Hrun & Hrow & Hent & Hlab).
  exists idx. split; [by rewrite Hrun|]. split; [|split].
  - intros a. destruct (entry idx a a) as [s|] eqn:He; [|done].
    assert (Hs : is_Some (entry idx a a)) by (by rewrite He).
    apply Hent in Hs as (st & _ & _ & Hne & _). done.
  - intros a b s He.
    assert (Hs : is_Some (entry idx a b)) by (by rewrite He).
    apply Hent in Hs as (st & Hin & Hlk). split; [by destruct Hlk as (_ & ? & _)|].
    exists st. split; [done|]. split; [by destruct Hlk|].
    assert (HL : json_type st ∈ labels idx a b).
    { apply Hlab. exists st. split; [done|]. split; [done|]. by left. }
    unfold labels in HL. by rewrite He in HL.
  - intros a m Hm.
    assert (Hs : is_Some (idx !! a)) by (by rewrite Hm).
    apply Hrow in Hs as (st & b & Hin & Hlk).
    assert (He : is_Some (entry idx a b)) by (apply Hent; eauto).
    destruct He as [s He]. unfold entry in He. rewrite Hm in He.
    by exists b, s.
Qed.

(** X23: the index depends on the collection only as a set: two lists with
    the same statements, in any order and with any repetitions, give the
    same index. *)
Theorem nested_dict_gen_order_irrelevant (ho : HierarchyManager)
    (stmts stmts' : list Statement) (tr : trace) :
  (list_to_set stmts : gset Statement) = list_to_set stmts' →
  (nested_dict_gen ho stmts tr).1 = (nested_dict_gen ho stmts' tr).1.
Proof.
  intros Hset.
  assert (Hin : ∀ st, st ∈ stmts ↔ st ∈ stmts').
  { intros st. rewrite <- !(elem_of_list_to_set (C := gset Statement)).
    by rewrite Hset. }
  destruct (nested_dict_gen_content ho stmts tr)
    as (idx & -> & Hrow & Hent & Hlab).
  destruct (nested_dict_gen_content ho stmts' tr)
    as (idx' & -> & Hrow' & Hent' & Hlab').
  simpl. f_equal. apply index_ext.
  - intros a. rewrite Hrow, Hrow'. by setoid_rewrite Hin.
  - intros a b. apply entry_eq_of_labels.
    + rewrite Hent, Hent'. by setoid_rewrite Hin.
    + intros L. fold (labels idx a b) (labels idx' a b).
      rewrite Hlab, Hlab'. by setoid_rewrite Hin.
Qed.

Lemma nested_dict_gen_order_irrelevant_witness :
  (list_to_set [Examples.phos_AB; Examples.complex_ABC] : gset Statement) =
    list_to_set [Examples.complex_ABC; Examples.phos_AB;
                 Examples.complex_ABC] ∧
  (nested_dict_gen Examples.family_ho
     [Examples.phos_AB; Examples.complex_ABC] []).1 =
  (nested_dict_gen Examples.family_ho
     [Examples.complex_ABC; Examples.phos_AB; Examples.complex_ABC] []).1.
Proof.
  assert (Hset : (list_to_set [Examples.phos_AB; Examples.complex_ABC]
                   : gset Statement) =
                 list_to_set [Examples.complex_ABC; Examples.phos_AB;
                              Examples.complex_ABC])
    by (vm_compute; reflexivity).
  split; [exact Hset|].
  exact (nested_dict_gen_order_irrelevant Examples.family_ho _ _ [] Hset).
Defined.

(** X24: a statement with fewer than two different participant names, or
    with an empty relation type, contributes nothing: the index is the one
    built from the other statements. *)
Theorem nested_dict_gen_skips (ho : HierarchyManager) (st : Statement)
    (stmts : list Statement) (tr : trace) :
  size (participant_names st) < 2 ∨ json_type st = "" →
  (nested_dict_gen ho (st :: stmts) tr).1 = (nested_dict_gen ho stmts tr).1.
Proof.
  intros Hskip. unfold nested_dict_gen.
  rewrite nested_dict_loop_step.
  assert (Hsame : (if decide (json_type st ≠ "")
                   then foldl (add_connection ho (json_type st)) ∅
                          (permutations2 (elements (participant_names st)))
                   else ∅) = (∅ : AdjacencyIndex)).
  { case_decide as Hty; [|done].
    destruct Hskip as [Hsize | Hempty]; [|done].
    rewrite permutations2_short; [done|].
    unfold size, set_size in Hsize. simpl in Hsize. lia. }
  rewrite Hsame. unfold_SE.
  by destruct (nested_dict_loop ho stmts ∅).
Qed.

Lemma nested_dict_gen_skips_witness :
  (size (participant_names Examples.phos_noneB) < 2 ∨
   json_type Examples.phos_noneB = "") ∧
  (nested_dict_gen Examples.family_ho
     [Examples.phos_noneB; Examples.phos_AB] []).1 =
  (nested_dict_gen Examples.family_ho [Examples.phos_AB] []).1.
Proof.
  assert (Hskip : size (participant_names Examples.phos_noneB) < 2 ∨
                  json_type Examples.phos_noneB = "")
    by (left; vm_compute; lia).
  split; [exact Hskip|].
  exact (nested_dict_gen_skips Examples.family_ho _ _ [] Hskip).
Defined.

(** X25: more statements never remove anything: every entry of the index
    of a collection is an entry of the index of a larger collection, with
    at least the same labels. *)
Theorem nested_dict_gen_monotone (ho : HierarchyManager)
    (stmts more : list Statement) (tr : trace) :
  ∃ idx idx' : AdjacencyIndex,
    (nested_dict_gen ho stmts tr).1 = Return idx ∧
    (nested_dict_gen ho (stmts ++ more) tr).1 = Return idx' ∧
    ∀ a b,
      (is_Some (entry idx a b) → is_Some (entry idx' a b)) ∧
      labels idx a b ⊆ labels idx' a b.
Proof.
  destruct (nested_dict_gen_content ho stmts tr)
    as (idx & -> & _ & Hent & Hlab).
  destruct (nested_dict_gen_content ho (stmts ++ more) tr)
    as (idx' & -> & _ & Hent' & Hlab').
  exists idx, idx'. split; [done|]. split; [done|]. intros a b. split.
  - rewrite Hent, Hent'. intros (st & Hin & Hlk). exists st.
    split; [|done]. apply elem_of_app. by left.
  - intros L. rewrite Hlab, Hlab'. intros (st & Hin & Hlk). exists st.
    split; [|done]. apply elem_of_app. by left.
Qed.

Lemma links_mentions_both (st : Statement) (a b : string) :
  links st a b ↔ json_type st ≠ "" ∧ a ≠ b ∧ mentions_both a b st.
Proof. unfold links, mentions_both. set_solver. Qed.

(** X26: the index agrees with the scan of the same collection: for two
    different names, the pair has an entry exactly when
    [direct_relation_from_stmts] returns a statement with a non-empty
    relation type, and the labels of the entry other than a ["parent"] from
    the hierarchy are the non-empty relation types of the statements
    returned. *)
Theorem nested_dict_gen_agrees_with_scan (ho : HierarchyManager)
    (stmts : list Statement) (a b : string) (tr : trace) :
  a ≠ b →
  ∃ (idx : AdjacencyIndex) (sel : list Statement),
    (nested_dict_gen ho stmts tr).1 = Return idx ∧
    direct_relation_from_stmts a b stmts = Return sel ∧
    (is_Some (entry idx a b) ↔ ∃ st, st ∈ sel ∧ json_type st ≠ "") ∧
    ∀ L, L ∈ labels idx a b ↔
         (L ≠ "" ∧ L ∈ relation_types sel) ∨
         (L = "parent" ∧ is_Some (entry idx a b) ∧
          has_common_parent ho "HGNC" a "HGNC" b "all" = true).
Proof.
  intros Hab.
  destruct (nested_dict_gen_content ho stmts tr)
    as (idx & Hrun & _ & Hent & Hlab).
  exists idx, (filter (mentions_both a b) stmts).
  split; [by rewrite Hrun|]. split.
  { unfold direct_relation_from_stmts. by rewrite from_stmts_loop_filter. }
  assert (Hsel : ∀ st, st ∈ stmts ∧ links st a b ↔
                       st ∈ filter (mentions_both a b) stmts ∧
                       json_type st ≠ "").
  { intros st. rewrite list_elem_of_filter, links_mentions_both.
    naive_solver. }
  split.
  - rewrite Hent. split.
    + intros (st & Hin & Hlk). exists st. by apply Hsel.
    + intros (st & Hin & Hty). exists st. by apply Hsel.
  - intros L. rewrite Hlab, Hent, relation_types_map.
    unfold added_label, relation_type.
    setoid_rewrite (list_elem_of_fmap (B := string)).
    split.
    + intros (st & Hin & Hlk & [-> | [-> Hcp]]).
      * left. destruct (proj1 (Hsel st) (conj Hin Hlk)) as [Hs Hty].
        split; [done|]. by exists st.
      * right. split; [done|]. split; [by exists st | done].
    + intros [(HL & st & -> & Hs) | (-> & (st & Hin & Hlk) & Hcp)].
      * destruct (proj2 (Hsel st) (conj Hs HL)) as [Hin Hlk].
        exists st. split; [done|]. split; [done|]. by left.
      * exists st. split; [done|]. split; [done|]. by right.
Qed.

Lemma nested_dict_gen_agrees_with_scan_witness :
  "A" ≠ "C" ∧
  ∃ (idx : AdjacencyIndex) (sel : list Statement),
    (nested_dict_gen Examples.family_ho
       [Examples.phos_AB; Examples.complex_ABC] []).1 = Return idx ∧
    direct_relation_from_stmts "A" "C"
      [Examples.phos_AB; Examples.complex_ABC] = Return sel ∧
    (is_Some (entry idx "A" "C") ↔ ∃ st, st ∈ sel ∧ json_type st ≠ "") ∧
    ∀ L, L ∈ labels idx "A" "C" ↔
         (L ≠ "" ∧ L ∈ relation_types sel) ∨
         (L = "parent" ∧ is_Some (entry idx "A" "C") ∧
          has_common_parent Examples.family_ho "HGNC" "A" "HGNC" "C" "all"
            = true).
Proof.
  assert (Hne : "A" ≠ "C") by discriminate.
  split; [exact Hne|].
  exact (nested_dict_gen_agrees_with_scan Examples.family_ho
           [Examples.phos_AB; Examples.complex_ABC] "A" "C" [] Hne).
Defined.

(** X27: the order in which the set of names of a statement is listed does
    not matter: two duplicate-free listings of the same names lead the
    inner loop to the same dictionary. *)
Theorem add_connections_order_irrelevant (ho : HierarchyManager)
    (c : string) (d : AdjacencyIndex) (l l' : list string) :
  NoDup l → NoDup l' →
  (list_to_set l : gset string) = list_to_set l' →
  foldl (add_connection ho c) d (permutations2 l) =
  foldl (add_connection ho c) d (permutations2 l').
Proof.
  intros Hnd Hnd' Hset.
  assert (Hin : ∀ x, x ∈ l ↔ x ∈ l').
  { intros x. rewrite <- !(elem_of_list_to_set (C := gset string)).
    by rewrite Hset. }
  assert (Hperm : ∀ x y, (x, y) ∈ permutations2 l ↔ (x, y) ∈ permutations2 l').
  { intros x y. rewrite !elem_of_permutations2 by done. by rewrite !Hin. }
  apply index_ext.
  - intros a. rewrite !row_foldl_add_connection. by setoid_rewrite Hperm.
  - intros a b.
    destruct (entry_foldl_add_connection ho c (permutations2 l) d a b)
      as [He Hl].
    destruct (entry_foldl_add_connection ho c (permutations2 l') d a b)
      as [He' Hl'].
    apply entry_eq_of_labels.
    + by rewrite He, He', Hperm.
    + intros L. fold (labels (foldl (add_connection ho c) d (permutations2 l)) a b)
        (labels (foldl (add_connection ho c) d (permutations2 l')) a b).
      by rewrite Hl, Hl', Hperm.
Qed.

Lemma add_connections_order_irrelevant_witness :
  NoDup ["A"; "B"; "C"] ∧ NoDup ["C"; "A"; "B"] ∧
  (list_to_set ["A"; "B"; "C"] : gset string) = list_to_set ["C"; "A"; "B"] ∧
  foldl (add_connection Examples.family_ho "Complex") ∅
    (permutations2 ["A"; "B"; "C"]) =
  foldl (add_connection Examples.family_ho "Complex") ∅
    (permutations2 ["C"; "A"; "B"]).
Proof.
  assert (Hnd : NoDup ["A"; "B"; "C"])
    by (refine (bool_decide_unpack _ _); vm_compute; exact I).
  assert (Hnd' : NoDup ["C"; "A"; "B"])
    by (refine (bool_decide_unpack _ _); vm_compute; exact I).
  assert (Hset : (list_to_set ["A"; "B"; "C"] : gset string) =
                 list_to_set ["C"; "A"; "B"]) by (vm_compute; reflexivity).
  split; [exact Hnd|]. split; [exact Hnd'|]. split; [exact Hset|].
  exact (add_connections_order_irrelevant Examples.family_ho "Complex" ∅
           _ _ Hnd Hnd' Hset).
Defined.
